(** * obs_necam: the NeCam header translator and its ingest configuration

    A shallow embedding of [gen3/translators/necam.py] (the class
    [NeCamTranslator]) and of [config/ingest.py], with the properties
    of the specification stated and proved over it.

    Conventions.
    - A FITS header is a finite map from keywords to card values
      ([gmap string hval]); [header[k]] on an absent keyword raises
      [KeyError].
    - Python exceptions are the [Err] results of [result].
    - A translator object carries its header and the translation cache
      of the host framework; methods are state transformers over it.
    - Values of the astropy classes ([Time], [Quantity], [Angle],
      [SkyCoord]) are represented by the constructor call that builds
      them: what astropy computes from the arguments is outside this
      repository.  Whether a call of [Time] or [SkyCoord] returns or
      raises on its arguments is astropy's decision too: it is a
      parameter of the development ([Astropy]), and the properties hold
      for every value of it.
    - A [str] is represented by its UTF-8 encoding, a [string] of bytes;
      indices and slices count code points, as Python does. *)

From Stdlib Require Import ZArith Strings.String Strings.Ascii.
From Stdlib Require Import Numbers.DecimalString Numbers.DecimalN Numbers.DecimalPos.
From stdpp Require Import base strings gmap list fin_maps.

Local Open Scope string_scope.

(** ** Python values *)

(** The value of a FITS card: a string, an integer, a boolean or a
    binary floating-point number [m * 2^e]. *)
Inductive hval : Type :=
  | VStr (s : string)
  | VInt (z : Z)
  | VBool (b : bool)
  | VFloat (m e : Z).

#[global] Instance hval_eq_dec : EqDecision hval.
Proof. solve_decision. Defined.

(** The units of [astropy.units] the translator names. *)
Inductive unit_ : Type := u_s | u_deg | u_hourangle | u_K | u_hPa.

#[global] Instance unit_eq_dec : EqDecision unit_.
Proof. solve_decision. Defined.

(** What a translation method returns. *)
Inductive pyval : Type :=
  | PNone
  | PVal (v : hval)
  | PQuantity (v : hval) (unit : unit_)
  | PAngle (q : pyval)
  | PTime (val format scale : string)
  | PAdd (a b : pyval)
  | PSkyCoord (ra dec : hval) (frame : string) (unit : unit_ * unit_).

Inductive exn : Type :=
  | KeyError (key : string)
  | TypeError
  | ValueError
  | AttributeError (name : string)
  | OtherError (class : string).

Inductive result (A : Type) : Type :=
  | Ok (a : A)
  | Err (e : exn).
Arguments Ok {A} a.
Arguments Err {A} e.

Abbreviation Header := (gmap string hval).

(** [header[key]] *)
Definition getitem (header : Header) (key : string) : result hval :=
  match header !! key with
  | Some v => Ok v
  | None => Err (KeyError key)
  end.

(** [key in header] *)
Definition contains (header : Header) (key : string) : bool :=
  bool_decide (is_Some (header !! key)).

(** [v == s] for a [str] literal [s]: a card value that is not a [str]
    is never equal to one. *)
Definition eq_str (v : hval) (s : string) : bool :=
  match v with
  | VStr t => String.eqb t s
  | _ => false
  end.

(** A dict display [{k1: v1, k2: v2, ...}]: a later entry replaces an
    earlier one with the same key. *)
Definition dict_literal {V} (entries : list (string * V)) : gmap string V :=
  foldl (fun m kv => <[kv.1 := kv.2]> m) ∅ entries.

(** ** Strings *)

(** A byte [10xxxxxx] continues the code point begun before it; every
    other byte begins one. *)
Definition is_continuation (c : ascii) : bool :=
  (128 <=? nat_of_ascii c)%nat && (nat_of_ascii c <? 192)%nat.


(** The first [n] code points of [s], each with all its bytes, read from
    just after the lead byte of a code point. *)
Fixpoint take_code_points (n : nat) (s : string) {struct s} : string :=
  match s with
  | "" => ""
  | String c s' =>
      if is_continuation c then String c (take_code_points n s')
      else match n with
           | O => ""
           | S n' => String c (take_code_points n' s')
           end
  end.

(** What is left of [s] after them. *)
Fixpoint drop_code_points (n : nat) (s : string) {struct s} : string :=
  match s with
  | "" => ""
  | String c s' =>
      if is_continuation c then drop_code_points n s'
      else match n with
           | O => s
           | S n' => drop_code_points n' s'
           end
  end.

(** [s[:n]] *)
Definition str_take (n : nat) (s : string) : string :=
  match n with
  | O => ""
  | S _ => take_code_points n s
  end.

(** [s[n:]] *)
Definition str_drop (n : nat) (s : string) : string :=
  match n with
  | O => s
  | S _ => drop_code_points n s
  end.

(** [s[i:j]] for literal indices [0 <= i <= j] *)
Definition str_slice (i j : nat) (s : string) : string :=
  str_take (j - i) (str_drop i s).

(** [sep.join(parts)] *)
Fixpoint str_join (sep : string) (parts : list string) : string :=
  match parts with
  | [] => ""
  | [p] => p
  | p :: rest => p ++ sep ++ str_join sep rest
  end.

Definition is_digit (c : ascii) : bool :=
  (48 <=? nat_of_ascii c)%nat && (nat_of_ascii c <=? 57)%nat.

Fixpoint all_digits (s : string) : bool :=
  match s with
  | "" => true
  | String c s' => is_digit c && all_digits s'
  end.

(** [format(z, "02d")] for an [int]: the decimal digits, the sign first
    when negative, and zeros between the sign and the digits up to a
    minimum width of two. *)
Definition decimal (n : N) : string :=
  NilZero.string_of_uint (N.to_uint n).

Fixpoint zeros (k : nat) : string :=
  match k with
  | O => ""
  | S k' => String "0" (zeros k')
  end.

Definition format_02d_int (z : Z) : string :=
  let sign := if (z <? 0)%Z then "-" else "" in
  let digits := decimal (Z.abs_N z) in
  sign ++ zeros (2 - String.length sign - String.length digits) ++ digits.

(** ['{:02d}'.format(v)]: the presentation type [d] is for integers
    ([bool] is one); [str] and [float] refuse it. *)
Definition format_02d (v : hval) : result string :=
  match v with
  | VInt z => Ok (format_02d_int z)
  | VBool b => Ok (format_02d_int (if b then 1 else 0))
  | VStr _ => Err ValueError
  | VFloat _ _ => Err ValueError
  end.

(** [v[i:j]] and [v[i:]] on a card value: only a [str] can be sliced, and
    the indices count its code points. *)
Definition getslice (v : hval) (i j : nat) : result string :=
  match v with
  | VStr s => Ok (str_slice i j s)
  | _ => Err TypeError
  end.

Definition getslice_from (v : hval) (i : nat) : result string :=
  match v with
  | VStr s => Ok (str_drop i s)
  | _ => Err TypeError
  end.

(** ** The astropy calls *)

(** The two constructors of astropy that the translator calls, as far
    as the translator can tell them apart: for the arguments of a call,
    [None] when the call returns and [Some e] when it raises [e].
    [Time_raises text] is for [Time(text, format="iso", scale="utc")] and
    [SkyCoord_raises ra dec] for
    [SkyCoord(ra, dec, frame="icrs", unit=(u.hourangle, u.deg))]. *)
Class Astropy : Type := {
  Time_raises : string → option exn;
  SkyCoord_raises : hval → hval → option exn
}.

(** [Time(val, format="iso", scale="utc")] *)
Definition Time_iso_utc `{astropy : Astropy} (val : string) : result pyval :=
  match Time_raises val with
  | None => Ok (PTime val "iso" "utc")
  | Some e => Err e
  end.

(** [SkyCoord(ra, dec, frame="icrs", unit=(u.hourangle, u.deg))] *)
Definition SkyCoord_icrs `{astropy : Astropy} (ra dec : hval) : result pyval :=
  match SkyCoord_raises ra dec with
  | None => Ok (PSkyCoord ra dec "icrs" (u_hourangle, u_deg))
  | Some e => Err e
  end.

(** ** Translator objects *)

(** A translator wraps one header.  [_translation_cache] is the host's
    per-object cache of translated properties.  [calls] is ghost state:
    the names of the method bodies that have run on this object, latest
    first; no method reads it. *)
Record translator : Type := Translator {
  _header : Header;
  _translation_cache : gmap string pyval;
  calls : list string
}.

(** [NeCamTranslator(header)] *)
Definition new (header : Header) : translator :=
  Translator header ∅ [].

(** A method: it reads and updates [self] and returns or raises. *)
Definition M (A : Type) : Type := translator → result A * translator.

Definition ret {A} (a : A) : M A := fun self => (Ok a, self).
Definition raise {A} (e : exn) : M A := fun self => (Err e, self).
Definition bind {A B} (m : M A) (k : A → M B) : M B :=
  fun self =>
    match m self with
    | (Ok a, self') => k a self'
    | (Err e, self') => (Err e, self')
    end.
Definition lift {A} (r : result A) : M A := fun self => (r, self).

Declare Scope method_scope.
Delimit Scope method_scope with M.
Notation "'do' x <- m ; k" := (bind m (fun x => k))
  (at level 10, x name, m at level 100, k at level 200) : method_scope.

(** [self._header[key]] *)
Definition header_item (key : string) : M hval :=
  fun self => (getitem (_header self) key, self).

(** Ghost: record that the body of method [name] runs. *)
Definition enter (name : string) : M unit :=
  fun self =>
    (Ok tt, Translator (_header self) (_translation_cache self) (name :: calls self)).

(** The result of a method on a newly built translator for [header]. *)
Definition eval {A} (m : M A) (header : Header) : result A :=
  (m (new header)).1.

(** How often the body of [name] has run on [self]. *)
Definition invocations (name : string) (self : translator) : nat :=
  List.length (List.filter (String.eqb name) (calls self)).

(** Modelled from the spec: the host's decorator [cache_translation],
    imported from [..translator] and not part of these sources.  The
    result of the decorated method is memoized in the translator under
    the method's name: a later call returns the stored result and does
    not run the body.  An exception leaves the cache as it is. *)
Definition cache_translation (name : string) (func : M pyval) : M pyval :=
  fun self =>
    match _translation_cache self !! name with
    | Some v => (Ok v, self)
    | None =>
        match func self with
        | (Ok v, self') =>
            (Ok v, Translator (_header self')
                              (<[name := v]> (_translation_cache self'))
                              (calls self'))
        | (Err e, self') => (Err e, self')
        end
    end.

(** Modelled from the spec: the method the host generates for an entry
    of [_trivial_map], a direct copy of the header keyword, with the
    unit attached when the entry gives one. *)
Definition trivial_translator (method key : string) (unit : option unit_) : M pyval :=
  (do _ <- enter method ;
   do value <- header_item key ;
   ret (match unit with
        | None => PVal value
        | Some u => PQuantity value u
        end))%M.

(** ** The translator class *)

Module NeCamTranslator.

Definition name : string := "NeCam".
Definition supported_instrument : string := "NeCam".

Definition _const_map : list (string * pyval) :=
  [ ("boresight_rotation_coord", PVal (VStr "sky"));
    ("detector_group", PNone);
    ("boresight_airmass", PNone);
    ("boresight_rotation_angle", PAngle (PQuantity (VInt 90) u_deg));
    ("science_program", PNone);
    ("temperature", PQuantity (VFloat 300 0) u_K);
    ("pressure", PQuantity (VFloat 985 0) u_hPa);
    ("relative_humidity", PNone);
    ("altaz_begin", PNone);
    ("location", PNone) ].

Definition _trivial_map : list (string * (string * option unit_)) :=
  [ ("exposure_id", ("RUN", None));
    ("visit_id", ("RUN", None));
    ("observation_id", ("RUN", None));
    ("detector_exposure_id", ("RUN", None));
    ("detector_num", ("DETECTOR", None));
    ("detector_serial", ("DETECTOR", None));
    ("physical_filter", ("FILTER", None));
    ("exposure_time", ("EXPTIME", Some u_s));
    ("dark_time", ("EXPTIME", Some u_s));
    ("object", ("OBJECT", None));
    ("observation_type", ("OBSTYPE", None)) ].

(** Modelled from the spec: the generated method [to_<property>] of a
    [_trivial_map] entry, the host's copy of the keyword under the
    host's cache. *)
Definition trivial_method (property : string) : M pyval :=
  match dict_literal _trivial_map !! property with
  | Some (key, unit) =>
      cache_translation ("to_" ++ property)
        (trivial_translator ("to_" ++ property) key unit)
  | None => raise (AttributeError ("to_" ++ property))
  end.

Definition to_exposure_id : M pyval := trivial_method "exposure_id".
Definition to_visit_id : M pyval := trivial_method "visit_id".
Definition to_observation_id : M pyval := trivial_method "observation_id".
Definition to_detector_exposure_id : M pyval := trivial_method "detector_exposure_id".
Definition to_detector_num : M pyval := trivial_method "detector_num".
Definition to_detector_serial : M pyval := trivial_method "detector_serial".
Definition to_exposure_time : M pyval := trivial_method "exposure_time".
Definition to_dark_time : M pyval := trivial_method "dark_time".

(** [can_translate(cls, header, filename=None)]: a class method, it
    reads the header only. *)
Definition can_translate (header : Header) : result bool :=
  if contains header "INSTRUME" then
    match getitem header "INSTRUME" with
    | Ok v => if eq_str v "NECAM" then Ok true else Ok false
    | Err e => Err e
    end
  else Ok false.

Definition to_datetime_begin `{astropy : Astropy} : M pyval :=
  cache_translation "to_datetime_begin"
    (do _ <- enter "to_datetime_begin" ;
     do date <- header_item "DATE-OBS" ;
     do y <- lift (getslice date 0 4) ;
     do m <- lift (getslice date 4 6) ;
     do d <- lift (getslice_from date 6) ;
     let date := str_join "-" [y; m; d] in
     do t <- lift (Time_iso_utc date) ;
     ret t)%M.

Definition to_datetime_end `{astropy : Astropy} : M pyval :=
  cache_translation "to_datetime_end"
    (do _ <- enter "to_datetime_end" ;
     do b <- to_datetime_begin ;
     do e <- to_exposure_time ;
     ret (PAdd b e))%M.

Definition to_tracking_radec `{astropy : Astropy} : M pyval :=
  cache_translation "to_tracking_radec"
    (do _ <- enter "to_tracking_radec" ;
     do ra <- header_item "RA2000" ;
     do dec <- header_item "DEC2000" ;
     do radec <- lift (SkyCoord_icrs ra dec) ;
     ret radec)%M.

Definition to_instrument : M pyval :=
  cache_translation "to_instrument"
    (do _ <- enter "to_instrument" ;
     do v <- header_item "INSTRUME" ;
     if eq_str v "NECAM" then ret (PVal (VStr "NeCam"))
     else ret (PVal (VStr "Unknown")))%M.

(** No decorator on this one. *)
Definition to_telescope : M pyval :=
  (do _ <- enter "to_telescope" ; to_instrument)%M.

Definition to_detector_name : M pyval :=
  cache_translation "to_detector_name"
    (do _ <- enter "to_detector_name" ;
     do v <- header_item "DETECTOR" ;
     do s <- lift (format_02d v) ;
     ret (PVal (VStr s)))%M.

End NeCamTranslator.

(** ** The ingest configuration, [config/ingest.py] *)

Module config.
Module parse.

Definition translation : list (string * string) :=
  [ ("dataType", "IMGTYPE");
    ("expTime", "EXPTIME");
    ("ccd", "INSTRUME");
    ("frameId", "RUN-ID");
    ("visit", "RUN-ID");
    ("filter", "FILTER");
    ("field", "OBJECT") ].

Definition translators : list (string * string) :=
  [ ("dateObs", "translate_Date");
    ("taiObs", "translate_Date") ].

End parse.

Module register.

Definition visit : list string :=
  ["visit"; "ccd"; "filter"; "dateObs"; "taiObs"].

Definition unique : list string :=
  ["visit"; "ccd"; "filter"].

Definition columns : gmap string string :=
  dict_literal
    [ ("frameId", "text");
      ("visit", "text");
      ("ccd", "text");
      ("filter", "text");
      ("dataType", "text");
      ("expTime", "double");
      ("dateObs", "text");
      ("taiObs", "text");
      ("field", "text") ].

End register.
End config.

(** ** Auxiliary definitions for the statements *)

Import NeCamTranslator.

(** The copy of a keyword: its value, or [KeyError]. *)
Definition copy_of (key : string) (header : Header) : result pyval :=
  match header !! key with
  | Some value => Ok (PVal value)
  | None => Err (KeyError key)
  end.

(** Checks on one detector number, for the range 0 to 99: the name has two
    characters; it is a zero followed by the digit. *)
Definition two_chars (n : nat) : bool :=
  Nat.eqb (String.length (format_02d_int (Z.of_nat n))) 2.

Definition zero_then_digit (n : nat) : bool :=
  String.eqb (format_02d_int (Z.of_nat n))
             (String "0" (String (ascii_of_nat (48 + n)) "")).

(** The accessors that store their result in the cache, under their
    names; [to_telescope] is not one of them. *)
Definition cached_accessors `{astropy : Astropy} : list (string * M pyval) :=
  [ ("to_datetime_begin", to_datetime_begin);
    ("to_datetime_end", to_datetime_end);
    ("to_tracking_radec", to_tracking_radec);
    ("to_instrument", to_instrument);
    ("to_detector_name", to_detector_name);
    ("to_exposure_time", to_exposure_time) ].

(** A translator whose cached results are those its header gives. *)
Definition coherent `{astropy : Astropy} (self : translator) : Prop :=
  Forall (fun entry : string * M pyval =>
            ∀ v, _translation_cache self !! entry.1 = Some v →
                 eval entry.2 (_header self) = Ok v)
         cached_accessors.

(** A cached accessor that reads the header and calls no other one:
    with no stored result, it does on any translator what it does on
    a new one, stores the result and logs its call. *)
Definition reads_header_only (name : string) (m : M pyval) : Prop :=
  ∀ self,
    _translation_cache self !! name = None →
    m self
    = match eval m (_header self) with
      | Ok v =>
          (Ok v, Translator (_header self)
                   (<[name := v]> (_translation_cache self))
                   (name :: calls self))
      | Err e =>
          (Err e, Translator (_header self) (_translation_cache self)
                    (name :: calls self))
      end.

(** An accessor whose result, on a coherent translator, is the one a new
    translator for the same header gives, and which keeps the header and
    the coherence. *)
Definition agrees `{astropy : Astropy} (m : M pyval) : Prop :=
  ∀ self, coherent self →
    (m self).1 = eval m (_header self) ∧
    _header (m self).2 = _header self ∧
    coherent (m self).2.

(** The properties the class translates with a method of its own. *)
Definition derived_properties : list string :=
  ["datetime_begin"; "datetime_end"; "tracking_radec"; "instrument";
   "telescope"; "detector_name"].

(** The accessors whose results are shown not to depend on earlier calls. *)
Definition accessors `{astropy : Astropy} : list (M pyval) :=
  [to_datetime_begin; to_datetime_end; to_tracking_radec; to_instrument;
   to_telescope; to_detector_name; to_exposure_time].

(** The translator after the calls [ms], made one after the other,
    whether they return or raise. *)
Definition after_calls (ms : list (M pyval)) (self : translator) : translator :=
  foldl (fun s m => (m s).2) self ms.

(** The integer that a text is the decimal numeral of, leading zeros
    allowed, with a minus sign in front for a negative one. *)
Definition numeral_value (s : string) : option Z :=
  option_map Z.of_int (NilEmpty.int_of_string s).

(** Text without a continuation byte: one byte for each code point. *)
Fixpoint plain (s : string) : bool :=
  match s with
  | "" => true
  | String c s' => negb (is_continuation c) && plain s'
  end.

(** *** A host for the examples *)

(** The number that a non-empty text of decimal digits spells. *)
Definition number (s : string) : option nat :=
  if all_digits s && negb (String.eqb s "")
  then option_map Nat.of_uint (NilEmpty.uint_of_string s)
  else None.

(** [s.split(sep)] for a separator of one character. *)
Fixpoint split_on (sep : ascii) (s : string) : list string :=
  match s with
  | "" => [""]
  | String c s' =>
      if Ascii.eqb c sep then "" :: split_on sep s'
      else match split_on sep s' with
           | [] => [String c ""]
           | p :: ps => String c p :: ps
           end
  end.

Definition leap_year (y : nat) : bool :=
  (y mod 4 =? 0)%nat && (negb (y mod 100 =? 0)%nat || (y mod 400 =? 0)%nat).

Definition days_in_month (y m : nat) : nat :=
  match m with
  | 1 | 3 | 5 | 7 | 8 | 10 | 12 => 31
  | 4 | 6 | 9 | 11 => 30
  | 2 => if leap_year y then 29 else 28
  | _ => 0
  end.

(** [YYYY-MM-DD], a day of the calendar. *)
Definition calendar_date (text : string) : bool :=
  match split_on "-" text with
  | [y; m; d] =>
      (String.length y =? 4)%nat && (String.length m =? 2)%nat
      && (String.length d =? 2)%nat
      && match number y, number m, number d with
         | Some y, Some m, Some d =>
             (1 <=? y)%nat && (1 <=? d)%nat && (d <=? days_in_month y m)%nat
         | _, _, _ => false
         end
  | _ => false
  end.

(** Two digits that spell a number below [bound]. *)
Definition two_digits_below (bound : nat) (s : string) : bool :=
  (String.length s =? 2)%nat
  && match number s with
     | Some n => (n <? bound)%nat
     | None => false
     end.

(** [DD:MM:SS] or [DD:MM:SS.fff], the first field below [bound]. *)
Definition sexagesimal (bound : nat) (s : string) : bool :=
  match split_on ":" s with
  | [a; b; c] =>
      two_digits_below bound a && two_digits_below 60 b
      && match split_on "." c with
         | [sec] => two_digits_below 60 sec
         | [sec; frac] =>
             two_digits_below 60 sec
             && match number frac with Some _ => true | None => false end
         | _ => false
         end
  | _ => false
  end.

Definition signed_sexagesimal (bound : nat) (s : string) : bool :=
  match s with
  | String c s' =>
      if Ascii.eqb c "-" || Ascii.eqb c "+" then sexagesimal bound s'
      else sexagesimal bound s
  | "" => false
  end.

(** A value of [Astropy] to run the accessors on.  Its [Time] takes the
    dates [YYYY-MM-DD] of the calendar and its [SkyCoord] a right
    ascension [HH:MM:SS(.f)] below 24 hours with a declination
    [(+|-)DD:MM:SS(.f)] below 90 degrees; both raise [ValueError] on
    everything else.  On the texts of the examples below it answers as
    astropy does; astropy also takes texts that this host refuses (a date
    with a time of day, other spellings of an angle), which is why the
    properties are stated for every host and not for this one. *)
Definition sample_host : Astropy := {|
  Time_raises text :=
    if calendar_date text then None else Some ValueError;
  SkyCoord_raises ra dec :=
    match ra, dec with
    | VStr r, VStr d =>
        if sexagesimal 24 r && signed_sexagesimal 90 d then None
        else Some ValueError
    | _, _ => Some ValueError
    end
|}.

(** * Properties *)

(** C1: [can_translate] never raises, and it answers [True] exactly when the
    header has the keyword INSTRUME with the value ["NECAM"]; a header
    without the keyword, or with any other value under it, gets [False]. *)
Theorem can_translate_iff_necam (header : Header) :
  can_translate header
  = Ok (bool_decide (header !! "INSTRUME" = Some (VStr "NECAM"))).
Proof.
  unfold can_translate, contains, getitem.
  destruct (header !! "INSTRUME") as [v|] eqn:E.
  - rewrite bool_decide_eq_true_2 by eauto.
    destruct v as [t| | |]; cbn [eq_str];
      try (rewrite bool_decide_eq_false_2 by congruence; reflexivity).
    destruct (String.eqb_spec t "NECAM") as [->|Hne].
    + rewrite bool_decide_eq_true_2; reflexivity.
    + rewrite bool_decide_eq_false_2; [reflexivity | congruence].
  - rewrite bool_decide_eq_false_2 by (intros [? ?]; congruence).
    rewrite bool_decide_eq_false_2 by congruence. reflexivity.
Qed.

(** ** Strings and slices *)

Lemma str_length_app (a b : string) :
  String.length (a ++ b) = String.length a + String.length b.
Proof. induction a as [|c a IH]; simpl; [done | by rewrite IH]. Qed.

Lemma is_digit_not_continuation (c : ascii) :
  is_digit c = true → is_continuation c = false.
Proof.
  unfold is_digit, is_continuation. intros H.
  apply andb_true_iff in H as [_ H]. apply Nat.leb_le in H.
  apply andb_false_iff. left. apply Nat.leb_gt. lia.
Qed.

Lemma all_digits_plain (s : string) : all_digits s = true → plain s = true.
Proof.
  induction s as [|c s IH]; [done|]. cbn [all_digits plain].
  intros H. apply andb_true_iff in H as [Hc Hs].
  by rewrite (is_digit_not_continuation c Hc), IH.
Qed.

Lemma all_digits_app (a b : string) :
  all_digits (a ++ b) = all_digits a && all_digits b.
Proof.
  induction a as [|c a IH]; [done|].
  change (all_digits (String c (a ++ b))
          = all_digits (String c a) && all_digits b).
  cbn [all_digits]. by rewrite IH, andb_assoc.
Qed.

Lemma plain_app (a b : string) : plain (a ++ b) = plain a && plain b.
Proof.
  induction a as [|c a IH]; [done|].
  change (plain (String c (a ++ b)) = plain (String c a) && plain b).
  cbn [plain]. by rewrite IH, andb_assoc.
Qed.

Lemma take_code_points_app (a b : string) :
  plain a = true → plain b = true →
  take_code_points (String.length a) (a ++ b) = a.
Proof.
  intros Ha Hb. induction a as [|c a IH].
  - destruct b as [|c b]; [done|]. cbn [plain] in Hb.
    apply andb_true_iff in Hb as [Hc _]. apply negb_true_iff in Hc.
    change (take_code_points 0 (String c b) = ""). cbn [take_code_points].
    by rewrite Hc.
  - cbn [plain] in Ha. apply andb_true_iff in Ha as [Hc Ha].
    apply negb_true_iff in Hc.
    change (take_code_points (S (String.length a)) (String c (a ++ b))
            = String c a).
    cbn [take_code_points]. by rewrite Hc, IH.
Qed.

Lemma drop_code_points_app (a b : string) :
  plain a = true → plain b = true →
  drop_code_points (String.length a) (a ++ b) = b.
Proof.
  intros Ha Hb. induction a as [|c a IH].
  - destruct b as [|c b]; [done|]. cbn [plain] in Hb.
    apply andb_true_iff in Hb as [Hc _]. apply negb_true_iff in Hc.
    change (drop_code_points 0 (String c b) = String c b).
    cbn [drop_code_points]. by rewrite Hc.
  - cbn [plain] in Ha. apply andb_true_iff in Ha as [Hc Ha].
    apply negb_true_iff in Hc.
    change (drop_code_points (S (String.length a)) (String c (a ++ b)) = b).
    cbn [drop_code_points]. by rewrite Hc, IH.
Qed.

Lemma str_take_app (a b : string) :
  plain a = true → plain b = true →
  str_take (String.length a) (a ++ b) = a.
Proof.
  intros Ha Hb. unfold str_take.
  destruct (String.length a) eqn:E; [by destruct a|].
  rewrite <- E. by apply take_code_points_app.
Qed.

Lemma str_drop_app (a b : string) :
  plain a = true → plain b = true →
  str_drop (String.length a) (a ++ b) = b.
Proof.
  intros Ha Hb. unfold str_drop.
  destruct (String.length a) eqn:E; [by destruct a|].
  rewrite <- E. by apply drop_code_points_app.
Qed.

Lemma drop_code_points_twice (n k : nat) (s : string) :
  drop_code_points (S k) (drop_code_points n s) = drop_code_points (n + S k) s.
Proof.
  revert n. induction s as [|c s IH]; intros n; [done|].
  destruct (is_continuation c) eqn:Hc.
  - cbn [drop_code_points]. rewrite Hc. apply IH.
  - destruct n as [|n].
    + replace (drop_code_points 0 (String c s)) with (String c s)
        by (cbn [drop_code_points]; by rewrite Hc).
      done.
    + change (S n + S k) with (S (n + S k)). cbn [drop_code_points].
      rewrite Hc. apply IH.
Qed.

Lemma str_drop_drop (n k : nat) (s : string) :
  str_drop k (str_drop n s) = str_drop (n + k) s.
Proof.
  destruct n as [|n]; [done|].
  destruct k as [|k]; [by rewrite Nat.add_0_r|].
  apply (drop_code_points_twice (S n) k).
Qed.

Lemma str_slice_parts (y m d : string) :
  String.length y = 4 → String.length m = 2 →
  plain y = true → plain m = true → plain d = true →
  str_slice 0 4 (y ++ m ++ d) = y ∧
  str_slice 4 6 (y ++ m ++ d) = m ∧
  str_drop 6 (y ++ m ++ d) = d.
Proof.
  intros Hy Hm Py Pm Pd. unfold str_slice.
  assert (Pmd : plain (m ++ d) = true) by (by rewrite plain_app, Pm, Pd).
  assert (Pymd : plain (y ++ m ++ d) = true) by (by rewrite plain_app, Py, Pmd).
  assert (Hd4 : str_drop 4 (y ++ m ++ d) = m ++ d)
    by (rewrite <- Hy; by apply str_drop_app).
  refine (conj _ (conj _ _)).
  - change (4 - 0) with 4. change (str_drop 0 (y ++ m ++ d)) with (y ++ m ++ d).
    rewrite <- Hy. by apply str_take_app.
  - change (6 - 4) with 2. rewrite Hd4, <- Hm. by apply str_take_app.
  - replace (str_drop 6 (y ++ m ++ d)) with (str_drop 2 (str_drop 4 (y ++ m ++ d)))
      by apply (str_drop_drop 4 2).
    rewrite Hd4, <- Hm. by apply str_drop_app.
Qed.

(** ** The cache *)

Section cache.
Context (name : string) (func : M pyval).

Lemma cache_translation_hit self v :
  _translation_cache self !! name = Some v →
  cache_translation name func self = (Ok v, self).
Proof. intros H. unfold cache_translation. by rewrite H. Qed.

Lemma cache_translation_miss self :
  _translation_cache self !! name = None →
  cache_translation name func self =
    match func self with
    | (Ok v, self') =>
        (Ok v, Translator (_header self')
                          (<[name := v]> (_translation_cache self'))
                          (calls self'))
    | (Err e, self') => (Err e, self')
    end.
Proof. intros H. unfold cache_translation. by rewrite H. Qed.

(** A result that was returned is in the cache afterwards. *)
Lemma cache_translation_stores self v self' :
  cache_translation name func self = (Ok v, self') →
  _translation_cache self' !! name = Some v.
Proof.
  unfold cache_translation.
  destruct (_translation_cache self !! name) as [w|] eqn:E.
  - intros [= <- <-]. done.
  - destruct (func self) as [[w|e] s]; intros [= <- <-]; simpl.
    apply lookup_insert_eq.
Qed.

(** Once a call has returned, every later call on the translator
    returns the same result and changes nothing: the body does not
    run again. *)
Lemma cache_translation_memo self v self' :
  cache_translation name func self = (Ok v, self') →
  cache_translation name func self' = (Ok v, self').
Proof.
  intros H. apply cache_translation_hit.
  by apply cache_translation_stores with self.
Qed.
End cache.

(** ** Start of the exposure *)

Ltac method_steps :=
  unfold bind, enter, header_item, lift, ret, raise, getitem;
  cbn [_header _translation_cache calls fst snd].

Ltac fresh_call :=
  unfold eval, new;
  rewrite cache_translation_miss by apply lookup_empty;
  method_steps.

(** What [to_datetime_begin] does with a [str] under DATE-OBS, whatever
    its length: the text is cut after four and after six characters, the
    three pieces are joined by hyphens and the result is handed to
    [Time]. *)
Lemma to_datetime_begin_str `{astropy : Astropy} (header : Header) (s : string) :
  header !! "DATE-OBS" = Some (VStr s) →
  eval to_datetime_begin header
  = Time_iso_utc (str_slice 0 4 s ++ "-" ++ str_slice 4 6 s ++ "-" ++ str_drop 6 s).
Proof.
  intros H. unfold to_datetime_begin. fresh_call. rewrite H.
  cbn [getslice getslice_from str_join].
  by destruct (Time_iso_utc _).
Qed.

(** C2, as the specification has it, fails: 20230229 is a string of
    eight digits, [Time] refuses the date 2023-02-29, which does not
    exist, and [to_datetime_begin] raises [ValueError]. *)
Lemma to_datetime_begin_raises_on_20230229 :
  ¬ (∀ (header : Header) (y m d : string),
       String.length y = 4 → String.length m = 2 → String.length d = 2 →
       all_digits (y ++ m ++ d) = true →
       header !! "DATE-OBS" = Some (VStr (y ++ m ++ d)) →
       eval (to_datetime_begin (astropy := sample_host)) header
       = Ok (PTime (y ++ "-" ++ m ++ "-" ++ d) "iso" "utc")).
Proof.
  intros H.
  specialize (H {["DATE-OBS" := VStr "20230229"]} "2023" "02" "29").
  assert (Hraises :
    eval (to_datetime_begin (astropy := sample_host))
         {["DATE-OBS" := VStr "20230229"]} = Err ValueError)
    by (by vm_compute).
  rewrite Hraises in H. discriminate H; reflexivity.
Qed.

(** C2, amended: for a header whose DATE-OBS is an eight-character digit
    string, year [y] (four digits), month [m] and day [d] (two digits each)
    written one after the other, [to_datetime_begin] calls [Time] on the
    ten-character ISO date [y-m-d], in format [iso] and scale [utc].  When
    [Time] takes that date, the accessor returns the time built from it;
    when [Time] refuses it, the accessor raises what [Time] raises. *)
Theorem to_datetime_begin_yyyymmdd `{astropy : Astropy}
    (header : Header) (y m d : string) :
  String.length y = 4 → String.length m = 2 → String.length d = 2 →
  all_digits (y ++ m ++ d) = true →
  header !! "DATE-OBS" = Some (VStr (y ++ m ++ d)) →
  String.length (y ++ "-" ++ m ++ "-" ++ d) = 10 ∧
  eval to_datetime_begin header
  = match Time_raises (y ++ "-" ++ m ++ "-" ++ d) with
    | None => Ok (PTime (y ++ "-" ++ m ++ "-" ++ d) "iso" "utc")
    | Some e => Err e
    end.
Proof.
  intros Hy Hm Hd Hdigits H.
  rewrite !all_digits_app in Hdigits.
  apply andb_true_iff in Hdigits as [Dy Hdigits].
  apply andb_true_iff in Hdigits as [Dm Dd].
  split.
  - rewrite !str_length_app, Hy, Hm, Hd. reflexivity.
  - rewrite (to_datetime_begin_str _ _ H).
    destruct (str_slice_parts y m d Hy Hm) as (-> & -> & ->);
      auto using all_digits_plain.
Qed.

Lemma to_datetime_begin_yyyymmdd_witness :
  eval (to_datetime_begin (astropy := sample_host))
       {["DATE-OBS" := VStr "20230115"]}
  = Ok (PTime "2023-01-15" "iso" "utc").
Proof.
  apply (to_datetime_begin_yyyymmdd (astropy := sample_host) _ "2023" "01" "15");
    [reflexivity | reflexivity | reflexivity | reflexivity |].
  apply lookup_singleton_eq.
Defined.

(** ** Generated methods *)

Lemma trivial_method_entry (property key : string) (unit : option unit_) :
  dict_literal _trivial_map !! property = Some (key, unit) →
  trivial_method property
  = cache_translation ("to_" ++ property)
      (trivial_translator ("to_" ++ property) key unit).
Proof. intros H. unfold trivial_method. by rewrite H. Qed.

(** A generated method on a new translator: the keyword's value, with
    the unit when there is one, or [KeyError]. *)
Lemma eval_trivial_method (property key : string) (unit : option unit_)
    (header : Header) :
  dict_literal _trivial_map !! property = Some (key, unit) →
  eval (trivial_method property) header
  = match header !! key with
    | Some value =>
        Ok (match unit with
            | None => PVal value
            | Some u => PQuantity value u
            end)
    | None => Err (KeyError key)
    end.
Proof.
  intros H. rewrite (trivial_method_entry _ _ _ H).
  unfold trivial_translator. fresh_call.
  by destruct (header !! key).
Qed.

(** With no cached result, a generated method does on any translator
    what it does on a new one, stores the result and logs its call. *)
Lemma trivial_method_reads_header_only (property key : string)
    (unit : option unit_) :
  dict_literal _trivial_map !! property = Some (key, unit) →
  reads_header_only ("to_" ++ property) (trivial_method property).
Proof.
  intros H self Hmiss. rewrite (eval_trivial_method _ _ _ _ H).
  rewrite (trivial_method_entry _ _ _ H).
  rewrite cache_translation_miss by done.
  unfold trivial_translator. method_steps.
  by destruct (_header self !! key).
Qed.

Lemma to_datetime_begin_reads_header_only `{astropy : Astropy} :
  reads_header_only "to_datetime_begin" to_datetime_begin.
Proof.
  intros self Hmiss. unfold to_datetime_begin at 2. fresh_call.
  unfold to_datetime_begin. rewrite cache_translation_miss by done.
  method_steps.
  destruct (_header self !! "DATE-OBS") as [[s| | |]|]; try done.
  cbn [getslice getslice_from str_join].
  by destruct (Time_iso_utc _).
Qed.

Lemma exposure_time_entry :
  dict_literal _trivial_map !! "exposure_time" = Some ("EXPTIME", Some u_s).
Proof. vm_compute. reflexivity. Qed.

(** ** End of the exposure *)

(** [to_exposure_time] is the value of EXPTIME with the unit of seconds. *)
Lemma eval_to_exposure_time (header : Header) :
  eval to_exposure_time header
  = match header !! "EXPTIME" with
    | Some value => Ok (PQuantity value u_s)
    | None => Err (KeyError "EXPTIME")
    end.
Proof. apply (eval_trivial_method _ _ _ _ exposure_time_entry). Qed.

Lemma to_exposure_time_reads_header_only :
  reads_header_only "to_exposure_time" to_exposure_time.
Proof.
  apply (trivial_method_reads_header_only _ _ _ exposure_time_entry).
Qed.

(** [to_datetime_end] on a new translator, from the two accessors it
    calls. *)
Lemma eval_to_datetime_end `{astropy : Astropy} (header : Header) :
  eval to_datetime_end header
  = match eval to_datetime_begin header with
    | Ok t =>
        match eval to_exposure_time header with
        | Ok e => Ok (PAdd t e)
        | Err x => Err x
        end
    | Err x => Err x
    end.
Proof.
  destruct (eval to_datetime_begin header) as [t|x] eqn:Hb;
    destruct (eval to_exposure_time header) as [e|y] eqn:He;
    unfold to_datetime_end; fresh_call;
    rewrite to_datetime_begin_reads_header_only by apply lookup_empty;
    cbn [_header _translation_cache calls]; rewrite Hb; try reflexivity;
    rewrite to_exposure_time_reads_header_only
      by (cbn [_translation_cache]; by rewrite lookup_insert_ne, lookup_empty);
    cbn [_header _translation_cache calls]; by rewrite He.
Qed.

(** C3: on a header for which [to_datetime_begin] returns [t] and
    [to_exposure_time] returns [e], [to_datetime_end] returns the
    sum [t + e], and [e] is the value of EXPTIME in seconds. *)
Theorem to_datetime_end_begin_plus_exposure `{astropy : Astropy} (header : Header) (t e : pyval) :
  eval to_datetime_begin header = Ok t →
  eval to_exposure_time header = Ok e →
  eval to_datetime_end header = Ok (PAdd t e) ∧
  ∃ value, header !! "EXPTIME" = Some value ∧ e = PQuantity value u_s.
Proof.
  intros Hb He. split.
  - by rewrite eval_to_datetime_end, Hb, He.
  - rewrite eval_to_exposure_time in He.
    destruct (header !! "EXPTIME") as [value|]; [|done].
    exists value. split; [done | congruence].
Qed.

Lemma to_datetime_end_begin_plus_exposure_witness :
  eval (to_datetime_end (astropy := sample_host))
    (dict_literal [("DATE-OBS", VStr "20230115"); ("EXPTIME", VFloat 30 0)])
  = Ok (PAdd (PTime "2023-01-15" "iso" "utc") (PQuantity (VFloat 30 0) u_s)).
Proof.
  apply (to_datetime_end_begin_plus_exposure
           (dict_literal [("DATE-OBS", VStr "20230115"); ("EXPTIME", VFloat 30 0)])
           (PTime "2023-01-15" "iso" "utc") (PQuantity (VFloat 30 0) u_s));
    vm_compute; reflexivity.
Defined.

(** ** Detector names *)

Lemma zeros_length (k : nat) : String.length (zeros k) = k.
Proof. induction k as [|k IH]; simpl; [done | by rewrite IH]. Qed.

(** The width is a minimum. *)
Lemma format_02d_int_min_width (z : Z) :
  (2 ≤ String.length (format_02d_int z))%nat.
Proof.
  unfold format_02d_int.
  rewrite !str_length_app, zeros_length. lia.
Qed.

(** A decimal numeral of at most two digits is at most 99. *)
Lemma short_numeral (d : Decimal.uint) :
  (String.length (NilZero.string_of_uint d) ≤ 2)%nat → (N.of_uint d ≤ 99)%N.
Proof.
  intros H.
  destruct d as [|d|d|d|d|d|d|d|d|d|d]; [by vm_compute|..];
    (destruct d as [|d|d|d|d|d|d|d|d|d|d]; [by vm_compute|..]);
    (destruct d; [by vm_compute | exfalso; simpl in H; lia ..]).
Qed.

Lemma decimal_nonempty (n : N) : (1 ≤ String.length (decimal n))%nat.
Proof.
  unfold decimal. destruct (N.to_uint n) as [|d|d|d|d|d|d|d|d|d|d]; simpl; lia.
Qed.

Lemma decimal_three_digits (n : N) :
  (100 ≤ n)%N → (3 ≤ String.length (decimal n))%nat.
Proof.
  intros Hn. unfold decimal.
  destruct (le_lt_dec (String.length (NilZero.string_of_uint (N.to_uint n))) 2)
    as [Hshort|Hlong]; [|lia].
  apply short_numeral in Hshort. rewrite DecimalN.Unsigned.of_to in Hshort. lia.
Qed.

(** No zero is added to a number of three digits or more, nor to a
    negative one. *)
Lemma format_02d_int_unpadded (z : Z) :
  (100 ≤ z)%Z ∨ (z < 0)%Z →
  format_02d_int z = (if (z <? 0)%Z then "-" else "") ++ decimal (Z.abs_N z).
Proof.
  intros Hz. unfold format_02d_int.
  assert (Hk : 2 - String.length (if (z <? 0)%Z then "-" else "")
                 - String.length (decimal (Z.abs_N z)) = 0).
  { destruct Hz as [Hz|Hz].
    - pose proof (decimal_three_digits (Z.abs_N z)). lia.
    - pose proof (decimal_nonempty (Z.abs_N z)).
      destruct (Z.ltb_spec z 0); [simpl; lia | lia]. }
  rewrite Hk. reflexivity.
Qed.

(** Below one hundred the name has two characters, and below ten the
    first of them is a zero. *)
Lemma format_02d_int_two_chars (z : Z) :
  (0 ≤ z ≤ 99)%Z → String.length (format_02d_int z) = 2.
Proof.
  intros Hz.
  assert (Hall : forallb two_chars (seq 0 100) = true) by (vm_compute; reflexivity).
  rewrite forallb_forall in Hall.
  specialize (Hall (Z.to_nat z)).
  unfold two_chars in Hall. rewrite Z2Nat.id in Hall by lia.
  apply Nat.eqb_eq, Hall, in_seq. lia.
Qed.

Lemma format_02d_int_single_digit (z : Z) :
  (0 ≤ z ≤ 9)%Z →
  format_02d_int z = String "0" (String (ascii_of_nat (48 + Z.to_nat z)) "").
Proof.
  intros Hz.
  assert (Hall : forallb zero_then_digit (seq 0 10) = true) by (vm_compute; reflexivity).
  rewrite forallb_forall in Hall.
  specialize (Hall (Z.to_nat z)).
  unfold zero_then_digit in Hall. rewrite Z2Nat.id in Hall by lia.
  apply String.eqb_eq, Hall, in_seq. lia.
Qed.

Lemma eval_to_detector_name (header : Header) :
  eval to_detector_name header
  = match header !! "DETECTOR" with
    | Some v =>
        match format_02d v with
        | Ok s => Ok (PVal (VStr s))
        | Err e => Err e
        end
    | None => Err (KeyError "DETECTOR")
    end.
Proof.
  unfold to_detector_name. fresh_call.
  destruct (header !! "DETECTOR") as [v|]; [|done].
  by destruct (format_02d v).
Qed.

(** C4, as the specification has it, fails: detector 100 gets the
    three-character name ["100"]. *)
Lemma to_detector_name_not_always_two_chars :
  ¬ (∀ (header : Header) (z : Z) (s : string),
       header !! "DETECTOR" = Some (VInt z) →
       eval to_detector_name header = Ok (PVal (VStr s)) →
       String.length s = 2).
Proof.
  intros H.
  specialize (H {["DETECTOR" := VInt 100]} 100%Z "100").
  discriminate H.
  - apply lookup_singleton_eq.
  - vm_compute. reflexivity.
Qed.

(** C4, amended: for an integer DETECTOR [z], [to_detector_name] returns
    the decimal digits of [z] padded with zeros to a width of at least two.
    From 0 to 99 the name has exactly two characters, and from 0 to 9 it is
    a zero followed by the digit; outside that range it is longer or
    carries a sign. *)
Theorem to_detector_name_zero_padded (header : Header) (z : Z) :
  header !! "DETECTOR" = Some (VInt z) →
  ∃ s : string,
    eval to_detector_name header = Ok (PVal (VStr s)) ∧
    s = format_02d_int z ∧
    (2 ≤ String.length s)%nat ∧
    ((0 ≤ z ≤ 99)%Z → String.length s = 2) ∧
    ((0 ≤ z ≤ 9)%Z →
       s = String "0" (String (ascii_of_nat (48 + Z.to_nat z)) "")) ∧
    ((100 ≤ z)%Z ∨ (z < 0)%Z →
       s = (if (z <? 0)%Z then "-" else "") ++ decimal (Z.abs_N z)) ∧
    ((100 ≤ z)%Z → (3 ≤ String.length s)%nat).
Proof.
  intros H. exists (format_02d_int z).
  rewrite eval_to_detector_name, H. cbn [format_02d].
  repeat split.
  - apply format_02d_int_min_width.
  - apply format_02d_int_two_chars.
  - apply format_02d_int_single_digit.
  - apply format_02d_int_unpadded.
  - intros Hz. rewrite format_02d_int_unpadded by auto.
    rewrite str_length_app.
    pose proof (decimal_three_digits (Z.abs_N z)). lia.
Qed.

Lemma to_detector_name_zero_padded_witness :
  ∃ s : string,
    eval to_detector_name {["DETECTOR" := VInt 3]} = Ok (PVal (VStr s)) ∧
    s = "03".
Proof.
  destruct (to_detector_name_zero_padded {["DETECTOR" := VInt 3]} 3)
    as (s & Hs & _ & _ & _ & H3 & _).
  - apply lookup_singleton_eq.
  - exists s. split; [exact Hs | apply H3; lia].
Defined.

(** ** Pointing *)

(** [to_tracking_radec] on a new translator: both keywords are read, right
    ascension first, before [SkyCoord] is called on the two values. *)
Lemma eval_to_tracking_radec `{astropy : Astropy} (header : Header) :
  eval to_tracking_radec header
  = match header !! "RA2000" with
    | Some ra =>
        match header !! "DEC2000" with
        | Some dec => SkyCoord_icrs ra dec
        | None => Err (KeyError "DEC2000")
        end
    | None => Err (KeyError "RA2000")
    end.
Proof.
  unfold to_tracking_radec. fresh_call.
  destruct (header !! "RA2000") as [ra|]; [|done].
  destruct (header !! "DEC2000") as [dec|]; [|done].
  by destruct (SkyCoord_icrs ra dec).
Qed.

(** C5: with RA2000 and DEC2000 in the header and well formed, that is,
    such that [SkyCoord] takes them, [to_tracking_radec] returns one
    coordinate, in the ICRS frame, built from exactly these two values,
    the first read in hour angle and the second in degrees. *)
Theorem to_tracking_radec_icrs `{astropy : Astropy}
    (header : Header) (ra dec : hval) :
  header !! "RA2000" = Some ra →
  header !! "DEC2000" = Some dec →
  SkyCoord_raises ra dec = None →
  eval to_tracking_radec header
  = Ok (PSkyCoord ra dec "icrs" (u_hourangle, u_deg)).
Proof.
  intros Hra Hdec Hwf.
  rewrite eval_to_tracking_radec, Hra, Hdec.
  unfold SkyCoord_icrs. by rewrite Hwf.
Qed.

Lemma to_tracking_radec_icrs_witness :
  eval (to_tracking_radec (astropy := sample_host))
    (dict_literal [("RA2000", VStr "12:30:00.0"); ("DEC2000", VStr "-05:00:00")])
  = Ok (PSkyCoord (VStr "12:30:00.0") (VStr "-05:00:00") "icrs"
          (u_hourangle, u_deg)).
Proof.
  apply (to_tracking_radec_icrs (astropy := sample_host));
    vm_compute; reflexivity.
Defined.

(** ** The ingest registry *)

(** C6: every key of [config.register.visit] and of [config.register.unique]
    is a key of [config.register.columns]. *)
Theorem register_keys_in_columns (key : string) :
  key ∈ config.register.visit ∨ key ∈ config.register.unique →
  is_Some (config.register.columns !! key).
Proof.
  unfold config.register.visit, config.register.unique.
  rewrite !elem_of_cons, !elem_of_nil.
  intros H.
  assert (Hin : ∀ k ty, config.register.columns !! k = Some ty →
                 key = k → is_Some (config.register.columns !! key))
    by (intros k ty Hk ->; eauto).
  repeat (destruct H as [H|H]); try done;
    (eapply Hin; [|exact H]; vm_compute; reflexivity).
Qed.

Lemma register_keys_in_columns_witness :
  is_Some (config.register.columns !! "taiObs").
Proof.
  apply register_keys_in_columns. left.
  unfold config.register.visit. rewrite !elem_of_cons. tauto.
Defined.

(** ** The instrument *)

Lemma eval_to_instrument (header : Header) :
  eval to_instrument header
  = match header !! "INSTRUME" with
    | Some v =>
        if eq_str v "NECAM" then Ok (PVal (VStr "NeCam"))
        else Ok (PVal (VStr "Unknown"))
    | None => Err (KeyError "INSTRUME")
    end.
Proof.
  unfold to_instrument. fresh_call.
  destruct (header !! "INSTRUME") as [v|]; [|done].
  by destruct (eq_str v "NECAM").
Qed.

(** C10: on a header that [can_translate] accepts, [to_instrument] returns
    ["NeCam"]; its ["Unknown"] branch is not taken. *)
Theorem to_instrument_of_accepted (header : Header) :
  can_translate header = Ok true →
  eval to_instrument header = Ok (PVal (VStr "NeCam")) ∧
  eval to_instrument header ≠ Ok (PVal (VStr "Unknown")).
Proof.
  intros Hcan.
  assert (H : eval to_instrument header = Ok (PVal (VStr "NeCam"))).
  { rewrite eval_to_instrument.
    unfold can_translate, contains, getitem in Hcan.
    destruct (header !! "INSTRUME") as [v|].
    - rewrite bool_decide_eq_true_2 in Hcan by eauto.
      by destruct (eq_str v "NECAM").
    - rewrite bool_decide_eq_false_2 in Hcan by (intros [? ?]; congruence).
      done. }
  split; [exact H | by rewrite H].
Qed.

Lemma to_instrument_of_accepted_witness :
  eval to_instrument (dict_literal [("INSTRUME", VStr "NECAM"); ("RUN", VInt 7)])
  = Ok (PVal (VStr "NeCam")).
Proof.
  apply to_instrument_of_accepted. vm_compute. reflexivity.
Defined.

(** ** Missing keywords *)

(** The properties with a declared constant are not among those the
    accessors below derive from the header. *)
Lemma derived_not_constant :
  Forall (fun property => dict_literal _const_map !! property = None)
    ["datetime_begin"; "datetime_end"; "tracking_radec"; "instrument";
     "telescope"; "detector_name"].
Proof. repeat constructor; vm_compute; reflexivity. Qed.

(** C7: an accessor whose keyword is absent from the header raises
    [KeyError] for that keyword and returns no value: DATE-OBS for
    [to_datetime_begin], RA2000 and DEC2000 for [to_tracking_radec],
    DETECTOR for [to_detector_name], INSTRUME for [to_instrument]. *)
Theorem absent_keyword_raises_key_error `{astropy : Astropy} (header : Header) :
  (header !! "DATE-OBS" = None →
     eval to_datetime_begin header = Err (KeyError "DATE-OBS")) ∧
  (header !! "RA2000" = None →
     eval to_tracking_radec header = Err (KeyError "RA2000")) ∧
  (is_Some (header !! "RA2000") → header !! "DEC2000" = None →
     eval to_tracking_radec header = Err (KeyError "DEC2000")) ∧
  (header !! "DETECTOR" = None →
     eval to_detector_name header = Err (KeyError "DETECTOR")) ∧
  (header !! "INSTRUME" = None →
     eval to_instrument header = Err (KeyError "INSTRUME")).
Proof.
  repeat split.
  - intros H. unfold to_datetime_begin. fresh_call. by rewrite H.
  - intros H. by rewrite eval_to_tracking_radec, H.
  - intros [ra Hra] H. by rewrite eval_to_tracking_radec, Hra, H.
  - intros H. by rewrite eval_to_detector_name, H.
  - intros H. by rewrite eval_to_instrument, H.
Qed.

Lemma absent_keyword_raises_key_error_witness :
  eval (to_datetime_begin (astropy := sample_host)) ∅ = Err (KeyError "DATE-OBS") ∧
  eval (to_tracking_radec (astropy := sample_host)) ∅ = Err (KeyError "RA2000") ∧
  eval (to_tracking_radec (astropy := sample_host)) {["RA2000" := VStr "12:30:00.0"]}
    = Err (KeyError "DEC2000") ∧
  eval to_detector_name ∅ = Err (KeyError "DETECTOR") ∧
  eval to_instrument ∅ = Err (KeyError "INSTRUME").
Proof.
  destruct (absent_keyword_raises_key_error (astropy := sample_host) ∅)
    as (H1 & H2 & _ & H4 & H5).
  destruct (absent_keyword_raises_key_error (astropy := sample_host)
              {["RA2000" := VStr "12:30:00.0"]})
    as (_ & _ & H3 & _).
  refine (conj _ (conj _ (conj _ (conj _ _)))).
  - apply H1, lookup_empty.
  - apply H2, lookup_empty.
  - apply H3; [rewrite lookup_singleton_eq; eauto | by vm_compute].
  - apply H4, lookup_empty.
  - apply H5, lookup_empty.
Defined.

(** ** Identifiers *)

Ltac entry_of property :=
  match goal with
  | |- context [eval (trivial_method property) ?header] =>
      let E := fresh "E" in
      eassert (E : dict_literal _trivial_map !! property = Some _)
        by (vm_compute; reflexivity);
      rewrite (eval_trivial_method _ _ _ header E); clear E
  end.

(** C9: [exposure_id], [visit_id], [observation_id] and
    [detector_exposure_id] are all the copy of RUN, hence equal to one
    another on every header; [detector_num] and [detector_serial] are both
    the copy of DETECTOR, hence equal. *)
Theorem identifiers_are_copies (header : Header) :
  (eval to_exposure_id header = copy_of "RUN" header ∧
   eval to_visit_id header = eval to_exposure_id header ∧
   eval to_observation_id header = eval to_exposure_id header ∧
   eval to_detector_exposure_id header = eval to_exposure_id header) ∧
  (eval to_detector_num header = copy_of "DETECTOR" header ∧
   eval to_detector_serial header = eval to_detector_num header).
Proof.
  unfold to_exposure_id, to_visit_id, to_observation_id,
    to_detector_exposure_id, to_detector_num, to_detector_serial, copy_of.
  entry_of "exposure_id". entry_of "visit_id". entry_of "observation_id".
  entry_of "detector_exposure_id". entry_of "detector_num".
  entry_of "detector_serial".
  done.
Qed.

(** ** Memoization *)

(** The decorated accessors: once one has returned on a translator, a
    repeated call returns the same result and leaves the translator,
    its call log included, as it is. *)
Lemma decorated_accessors_memoized `{astropy : Astropy} (m : M pyval) :
  m ∈ [to_datetime_begin; to_datetime_end; to_tracking_radec;
       to_instrument; to_detector_name] →
  ∀ self v self', m self = (Ok v, self') → m self' = (Ok v, self').
Proof.
  rewrite !elem_of_cons, elem_of_nil.
  intros [->|[->|[->|[->|[->|[]]]]]] self v self';
    apply cache_translation_memo.
Qed.

(** [to_instrument] logs at most its own name. *)
Lemma to_instrument_calls (self : translator) :
  calls (to_instrument self).2 = calls self ∨
  calls (to_instrument self).2 = "to_instrument" :: calls self.
Proof.
  unfold to_instrument, cache_translation.
  destruct (_translation_cache self !! "to_instrument"); [by left|].
  right. method_steps.
  destruct (_header self !! "INSTRUME") as [v|]; [|done].
  by destruct (eq_str v "NECAM").
Qed.

(** [to_telescope] has no decorator: its body runs at every call, on
    any translator. *)
Lemma to_telescope_always_runs (self : translator) :
  invocations "to_telescope" (to_telescope self).2
  = S (invocations "to_telescope" self).
Proof.
  unfold to_telescope, bind, enter.
  pose proof (to_instrument_calls
    (Translator (_header self) (_translation_cache self)
                ("to_telescope" :: calls self))) as Hcalls.
  destruct (to_instrument _) as [[v|e] self'];
    cbn [snd calls] in *; unfold invocations;
    destruct Hcalls as [-> | ->]; reflexivity.
Qed.

(** Its results agree all the same, through the cache of
    [to_instrument]. *)
Lemma to_telescope_consistent (self : translator) (v : pyval) (self' : translator) :
  to_telescope self = (Ok v, self') →
  (to_telescope self').1 = Ok v.
Proof.
  unfold to_telescope, bind, enter. intros H.
  destruct (to_instrument _) as [[w|e] s] eqn:E in H; [|discriminate].
  injection H as -> ->.
  apply cache_translation_stores in E.
  unfold to_instrument.
  rewrite cache_translation_hit with (v := v); done.
Qed.

(** C8, at the header [{"INSTRUME": "NECAM"}]: two calls of [to_telescope] on
    one translator run its body twice and store nothing under its name;
    the body of [to_instrument] runs once, and both calls return
    ["NeCam"]. *)
Theorem to_telescope_not_memoized :
  let self0 := new {["INSTRUME" := VStr "NECAM"]} in
  let self1 := (to_telescope self0).2 in
  let self2 := (to_telescope self1).2 in
  (to_telescope self0).1 = Ok (PVal (VStr "NeCam")) ∧
  (to_telescope self1).1 = Ok (PVal (VStr "NeCam")) ∧
  invocations "to_telescope" self1 = 1 ∧
  invocations "to_telescope" self2 = 2 ∧
  invocations "to_instrument" self2 = 1 ∧
  _translation_cache self2 !! "to_telescope" = None ∧
  _translation_cache self2 !! "to_instrument" = Some (PVal (VStr "NeCam")).
Proof. vm_compute. repeat split. Qed.

(** ** Results do not depend on the cache *)

Lemma to_tracking_radec_reads_header_only `{astropy : Astropy} :
  reads_header_only "to_tracking_radec" to_tracking_radec.
Proof.
  intros self Hmiss. rewrite eval_to_tracking_radec.
  unfold to_tracking_radec. rewrite cache_translation_miss by done.
  method_steps.
  destruct (_header self !! "RA2000") as [ra|]; [|done].
  destruct (_header self !! "DEC2000") as [dec|]; [|done].
  by destruct (SkyCoord_icrs ra dec).
Qed.

Lemma to_instrument_reads_header_only :
  reads_header_only "to_instrument" to_instrument.
Proof.
  intros self Hmiss. rewrite eval_to_instrument.
  unfold to_instrument. rewrite cache_translation_miss by done.
  method_steps.
  destruct (_header self !! "INSTRUME") as [v|]; [|done].
  by destruct (eq_str v "NECAM").
Qed.

Lemma to_detector_name_reads_header_only :
  reads_header_only "to_detector_name" to_detector_name.
Proof.
  intros self Hmiss. rewrite eval_to_detector_name.
  unfold to_detector_name. rewrite cache_translation_miss by done.
  method_steps.
  destruct (_header self !! "DETECTOR") as [v|]; [|done].
  by destruct (format_02d v).
Qed.

Lemma coherent_new `{astropy : Astropy} (header : Header) : coherent (new header).
Proof.
  unfold coherent. apply Forall_forall. intros entry _ v.
  cbn [new _translation_cache]. by rewrite lookup_empty.
Qed.

Lemma coherent_lookup `{astropy : Astropy} (self : translator) (name : string) (m : M pyval) (v : pyval) :
  coherent self → (name, m) ∈ cached_accessors →
  _translation_cache self !! name = Some v →
  eval m (_header self) = Ok v.
Proof.
  unfold coherent. rewrite Forall_forall. intros Hco Hin Hv.
  by apply (Hco (name, m) Hin).
Qed.

(** One name, one accessor. *)
Lemma cached_accessors_functional `{astropy : Astropy} (name : string) (m1 m2 : M pyval) :
  (name, m1) ∈ cached_accessors → (name, m2) ∈ cached_accessors → m1 = m2.
Proof.
  unfold cached_accessors. rewrite !elem_of_cons, !elem_of_nil.
  intros H1 H2.
  repeat (destruct H1 as [H1|H1]); try done;
    repeat (destruct H2 as [H2|H2]); try done; congruence.
Qed.

(** The calls log plays no part in coherence. *)
Lemma coherent_calls `{astropy : Astropy} (self : translator) (log : list string) :
  coherent self →
  coherent (Translator (_header self) (_translation_cache self) log).
Proof. done. Qed.

(** Storing the result of an accessor under its name keeps coherence. *)
Lemma coherent_store `{astropy : Astropy} (self : translator) (name : string) (m : M pyval)
    (v : pyval) (log : list string) :
  coherent self → (name, m) ∈ cached_accessors →
  eval m (_header self) = Ok v →
  coherent (Translator (_header self)
              (<[name := v]> (_translation_cache self)) log).
Proof.
  intros Hco Hin Hv. unfold coherent. apply Forall_forall.
  intros [name' m'] Hin' v'. cbn [fst snd _header _translation_cache].
  destruct (decide (name = name')) as [<-|Hne].
  - rewrite lookup_insert_eq. intros [= <-].
    by rewrite (cached_accessors_functional _ _ _ Hin' Hin).
  - rewrite lookup_insert_ne by done. by apply coherent_lookup.
Qed.

Section header_readers.
Context `{astropy : Astropy} (name : string) (m : M pyval).
Hypothesis Hin : (name, m) ∈ cached_accessors.
Hypothesis Hhit : ∀ self v,
  _translation_cache self !! name = Some v → m self = (Ok v, self).
Hypothesis Hmiss : reads_header_only name m.

Lemma header_reader_agrees : agrees m.
Proof using Hin Hhit Hmiss.
  intros self Hco.
  destruct (_translation_cache self !! name) as [v|] eqn:E.
  - rewrite (Hhit _ _ E). cbn [fst snd].
    by rewrite (coherent_lookup _ _ _ _ Hco Hin E).
  - rewrite (Hmiss _ E).
    destruct (eval m (_header self)) as [v|e] eqn:Ev; cbn [fst snd _header].
    + repeat split. by apply coherent_store with m.
    + repeat split. by apply coherent_calls.
Qed.
End header_readers.

Ltac listed := unfold cached_accessors; rewrite !elem_of_cons; tauto.

Lemma to_datetime_begin_agrees `{astropy : Astropy} : agrees to_datetime_begin.
Proof.
  apply (header_reader_agrees "to_datetime_begin"); [listed | |].
  - intros self v. apply cache_translation_hit.
  - apply to_datetime_begin_reads_header_only.
Qed.

Lemma to_exposure_time_agrees `{astropy : Astropy} : agrees to_exposure_time.
Proof.
  apply (header_reader_agrees "to_exposure_time"); [listed | |].
  - intros self v. unfold to_exposure_time.
    rewrite (trivial_method_entry _ _ _ exposure_time_entry).
    apply cache_translation_hit.
  - apply to_exposure_time_reads_header_only.
Qed.

Lemma to_tracking_radec_agrees `{astropy : Astropy} : agrees to_tracking_radec.
Proof.
  apply (header_reader_agrees "to_tracking_radec"); [listed | |].
  - intros self v. apply cache_translation_hit.
  - apply to_tracking_radec_reads_header_only.
Qed.

Lemma to_instrument_agrees `{astropy : Astropy} : agrees to_instrument.
Proof.
  apply (header_reader_agrees "to_instrument"); [listed | |].
  - intros self v. apply cache_translation_hit.
  - apply to_instrument_reads_header_only.
Qed.

Lemma to_detector_name_agrees `{astropy : Astropy} : agrees to_detector_name.
Proof.
  apply (header_reader_agrees "to_detector_name"); [listed | |].
  - intros self v. apply cache_translation_hit.
  - apply to_detector_name_reads_header_only.
Qed.

(** [to_datetime_end] calls two accessors on the translator as it finds
    it, cached results included. *)
Lemma to_datetime_end_agrees `{astropy : Astropy} : agrees to_datetime_end.
Proof.
  intros self Hco.
  destruct (_translation_cache self !! "to_datetime_end") as [v|] eqn:E.
  { assert (Hhit : to_datetime_end self = (Ok v, self))
      by (by apply cache_translation_hit).
    rewrite Hhit. cbn [fst snd].
    rewrite (coherent_lookup _ "to_datetime_end" to_datetime_end v Hco);
      [done | listed | done]. }
  rewrite eval_to_datetime_end.
  unfold to_datetime_end. rewrite cache_translation_miss by done.
  method_steps.
  set (s1 := Translator (_header self) (_translation_cache self)
               ("to_datetime_end" :: calls self)).
  destruct (to_datetime_begin_agrees s1 (coherent_calls _ _ Hco))
    as (Hr1 & Hh1 & Hco1).
  destruct (to_datetime_begin s1) as [r1 s2]. cbn [fst snd] in Hr1, Hh1, Hco1.
  cbn [_header s1] in Hr1, Hh1. rewrite <- Hr1.
  destruct r1 as [t|x]; [|by cbn [fst snd]].
  destruct (to_exposure_time_agrees s2 Hco1) as (Hr2 & Hh2 & Hco2).
  destruct (to_exposure_time s2) as [r2 s3]. cbn [fst snd] in Hr2, Hh2, Hco2.
  rewrite Hh1 in Hr2, Hh2. rewrite <- Hr2.
  destruct r2 as [e|x]; cbn [fst snd _header]; [|done].
  repeat split; [done|].
  apply coherent_store with to_datetime_end; [done | listed |].
  rewrite Hh2, eval_to_datetime_end, <- Hr1, <- Hr2. done.
Qed.

Lemma to_telescope_agrees `{astropy : Astropy} : agrees to_telescope.
Proof.
  intros self Hco.
  set (s1 := Translator (_header self) (_translation_cache self)
               ("to_telescope" :: calls self)).
  assert (Hrun : to_telescope self = to_instrument s1).
  { unfold to_telescope, bind, enter. reflexivity. }
  destruct (to_instrument_agrees s1 (coherent_calls _ _ Hco)) as (Hr & Hh & Hco1).
  assert (Hev : eval to_telescope (_header self) = eval to_instrument (_header self)).
  { unfold eval at 1.
    change (to_telescope (new (_header self)))
      with (to_instrument (Translator (_header self) ∅ ["to_telescope"])).
    rewrite to_instrument_reads_header_only by apply lookup_empty.
    cbn [_header]. by destruct (eval to_instrument (_header self)). }
  rewrite Hev, Hrun. done.
Qed.

(** Whatever has been called before on a translator built from a header,
    each of these accessors returns what it returns on a new translator
    for that header. *)
Lemma accessors_agree `{astropy : Astropy} (m : M pyval) :
  m ∈ [to_datetime_begin; to_datetime_end; to_tracking_radec;
       to_instrument; to_telescope; to_detector_name; to_exposure_time] →
  agrees m.
Proof.
  rewrite !elem_of_cons, elem_of_nil.
  intros [->|[->|[->|[->|[->|[->|[->|[]]]]]]]];
    auto using to_datetime_begin_agrees, to_datetime_end_agrees,
      to_tracking_radec_agrees, to_instrument_agrees, to_telescope_agrees,
      to_detector_name_agrees, to_exposure_time_agrees.
Qed.

(** On one coherent translator, in whatever state its cache is, the end of
    the exposure is the start plus the exposure time. *)
Lemma to_datetime_end_on_any_translator `{astropy : Astropy} (self : translator) (t e : pyval) :
  coherent self →
  (to_datetime_begin self).1 = Ok t →
  (to_exposure_time self).1 = Ok e →
  (to_datetime_end self).1 = Ok (PAdd t e).
Proof.
  intros Hco Hb He.
  destruct (to_datetime_begin_agrees self Hco) as (Hb' & _).
  destruct (to_exposure_time_agrees self Hco) as (He' & _).
  destruct (to_datetime_end_agrees self Hco) as (-> & _).
  by rewrite eval_to_datetime_end, <- Hb', <- He', Hb, He.
Qed.

(** Two calls in a row of one accessor return the same thing, raised
    exceptions included. *)
Lemma repeated_call_same_result `{astropy : Astropy} (m : M pyval) (self : translator) :
  agrees m → coherent self →
  (m (m self).2).1 = (m self).1.
Proof.
  intros Hm Hco.
  destruct (Hm self Hco) as (-> & Hh & Hco').
  destruct (Hm _ Hco') as (-> & _). by rewrite Hh.
Qed.

(** * Further properties of the translator *)

(** ** Instrument and recognition *)

(** X2: [to_instrument] and [can_translate] use the same test.  The
    instrument is ["NeCam"] exactly on the headers that [can_translate]
    accepts, ["Unknown"] exactly on those that have INSTRUME and are
    rejected, and the call raises exactly when INSTRUME is absent. *)
Theorem to_instrument_cases (header : Header) :
  (eval to_instrument header = Ok (PVal (VStr "NeCam"))
     ↔ can_translate header = Ok true) ∧
  (eval to_instrument header = Ok (PVal (VStr "Unknown"))
     ↔ is_Some (header !! "INSTRUME") ∧ can_translate header = Ok false) ∧
  (eval to_instrument header = Err (KeyError "INSTRUME")
     ↔ header !! "INSTRUME" = None).
Proof.
  rewrite eval_to_instrument.
  unfold can_translate, contains, getitem.
  destruct (header !! "INSTRUME") as [v|] eqn:E.
  - rewrite bool_decide_eq_true_2 by eauto.
    destruct (eq_str v "NECAM"); repeat split; try done; eauto.
    intros [_ [=]].
  - rewrite bool_decide_eq_false_2 by (intros [? ?]; congruence).
    repeat split; try done. intros [[? [=]] _].
Qed.

Lemma to_instrument_cases_witness :
  eval to_instrument {["INSTRUME" := VStr "necam"]} = Ok (PVal (VStr "Unknown")).
Proof.
  destruct (to_instrument_cases {["INSTRUME" := VStr "necam"]}) as (_ & H & _).
  apply H. split; [rewrite lookup_singleton_eq; eauto | by vm_compute].
Defined.

(** ** Dates that are not eight digits *)







(** X3: a DATE-OBS card that is not a [str] (a date written without
    quotes is read as an [int]) makes [to_datetime_begin] raise
    [TypeError]. *)
Theorem to_datetime_begin_not_str `{astropy : Astropy} (header : Header) (v : hval) :
  header !! "DATE-OBS" = Some v →
  (∀ s, v ≠ VStr s) →
  eval to_datetime_begin header = Err TypeError.
Proof.
  intros H Hv. unfold to_datetime_begin. fresh_call. rewrite H.
  destruct v as [s| | |]; [by destruct (Hv s) | done..].
Qed.

Lemma to_datetime_begin_not_str_witness :
  eval (to_datetime_begin (astropy := sample_host)) {["DATE-OBS" := VInt 20230115]} = Err TypeError.
Proof.
  apply (to_datetime_begin_not_str _ (VInt 20230115)).
  - apply lookup_singleton_eq.
  - intros s. discriminate.
Defined.



(** ** Failures of [to_datetime_end] *)

(** X5: [to_datetime_end] raises what [to_datetime_begin] raises, whatever
    EXPTIME is: [KeyError] for DATE-OBS when it is absent, [TypeError] when
    it is not a [str], and what [Time] raises when it is a text that
    [Time] refuses.  Only with a DATE-OBS that [to_datetime_begin]
    translates does a missing EXPTIME show, as [KeyError] for EXPTIME. *)
Theorem to_datetime_end_failures `{astropy : Astropy} (header : Header) :
  (header !! "DATE-OBS" = None →
     eval to_datetime_end header = Err (KeyError "DATE-OBS")) ∧
  (∀ v, header !! "DATE-OBS" = Some v → (∀ s, v ≠ VStr s) →
     eval to_datetime_end header = Err TypeError) ∧
  (∀ x, eval to_datetime_begin header = Err x →
     eval to_datetime_end header = Err x) ∧
  (∀ t, eval to_datetime_begin header = Ok t → header !! "EXPTIME" = None →
     eval to_datetime_end header = Err (KeyError "EXPTIME")).
Proof.
  rewrite eval_to_datetime_end, eval_to_exposure_time.
  refine (conj _ (conj _ (conj _ _))).
  - intros H. unfold to_datetime_begin. fresh_call. by rewrite H.
  - intros v H Hv. unfold to_datetime_begin. fresh_call. rewrite H.
    destruct v as [s| | |]; [by destruct (Hv s) | done..].
  - intros x H. by rewrite H.
  - intros t H He. by rewrite H, He.
Qed.

Lemma to_datetime_end_failures_witness :
  eval (to_datetime_end (astropy := sample_host)) ∅ = Err (KeyError "DATE-OBS") ∧
  eval (to_datetime_end (astropy := sample_host))
       {["DATE-OBS" := VInt 20230115]} = Err TypeError ∧
  eval (to_datetime_end (astropy := sample_host))
       {["DATE-OBS" := VStr "20230229"]} = Err ValueError ∧
  eval (to_datetime_end (astropy := sample_host))
       {["DATE-OBS" := VStr "20230115"]} = Err (KeyError "EXPTIME").
Proof.
  refine (conj _ (conj _ (conj _ _))).
  - destruct (to_datetime_end_failures (astropy := sample_host) ∅) as (H & _).
    apply H, lookup_empty.
  - destruct (to_datetime_end_failures (astropy := sample_host)
                {["DATE-OBS" := VInt 20230115]}) as (_ & H & _).
    apply (H (VInt 20230115)); [apply lookup_singleton_eq | discriminate].
  - destruct (to_datetime_end_failures (astropy := sample_host)
                {["DATE-OBS" := VStr "20230229"]}) as (_ & _ & H & _).
    apply H. by vm_compute.
  - destruct (to_datetime_end_failures (astropy := sample_host)
                {["DATE-OBS" := VStr "20230115"]}) as (_ & _ & _ & H).
    apply (H (PTime "2023-01-15" "iso" "utc")); by vm_compute.
Defined.

(** ** Detector names, again *)

Lemma decimal_digits (n : N) :
  decimal n = NilEmpty.string_of_uint (N.to_uint n).
Proof.
  unfold decimal. destruct n as [|p]; [reflexivity|].
  cbn [N.to_uint].
  pose proof (DecimalPos.Unsigned.to_uint_nonnil p) as Hp.
  by destruct (Pos.to_uint p).
Qed.

Lemma zeros_digits (k : nat) (d : Decimal.uint) :
  zeros k ++ NilEmpty.string_of_uint d
  = NilEmpty.string_of_uint (Nat.iter k Decimal.D0 d).
Proof.
  induction k as [|k IH]; [reflexivity|].
  change (String "0" (zeros k ++ NilEmpty.string_of_uint d)
          = String "0" (NilEmpty.string_of_uint (Nat.iter k Decimal.D0 d))).
  by rewrite IH.
Qed.

Lemma of_uint_leading_zeros (k : nat) (d : Decimal.uint) :
  Pos.of_uint (Nat.iter k Decimal.D0 d) = Pos.of_uint d.
Proof. induction k as [|k IH]; [reflexivity | exact IH]. Qed.

(** A name reads back as the number it was made from. *)
Lemma format_02d_int_value (z : Z) :
  numeral_value (format_02d_int z) = Some z.
Proof.
  unfold numeral_value, format_02d_int.
  rewrite decimal_digits, zeros_digits.
  set (k := 2 - _ - _).
  destruct (Z.ltb_spec z 0) as [Hneg|Hpos].
  - change ("-" ++ NilEmpty.string_of_uint (Nat.iter k Decimal.D0 (N.to_uint (Z.abs_N z))))
      with (NilEmpty.string_of_int
              (Decimal.Neg (Nat.iter k Decimal.D0 (N.to_uint (Z.abs_N z))))).
    rewrite NilEmpty.isi. cbn [option_map Z.of_int]. unfold Z.of_uint.
    rewrite of_uint_leading_zeros.
    change (Pos.of_uint (N.to_uint (Z.abs_N z)))
      with (N.of_uint (N.to_uint (Z.abs_N z))).
    rewrite DecimalN.Unsigned.of_to, N2Z.inj_abs_N. f_equal. lia.
  - change ("" ++ NilEmpty.string_of_uint (Nat.iter k Decimal.D0 (N.to_uint (Z.abs_N z))))
      with (NilEmpty.string_of_int
              (Decimal.Pos (Nat.iter k Decimal.D0 (N.to_uint (Z.abs_N z))))).
    rewrite NilEmpty.isi. cbn [option_map Z.of_int]. unfold Z.of_uint.
    rewrite of_uint_leading_zeros.
    change (Pos.of_uint (N.to_uint (Z.abs_N z)))
      with (N.of_uint (N.to_uint (Z.abs_N z))).
    rewrite DecimalN.Unsigned.of_to, N2Z.inj_abs_N. f_equal. lia.
Qed.

(** X6: [to_detector_name] takes integers only.  A DETECTOR card that is
    a [str] or a [float] makes it raise [ValueError], even when it spells
    a whole number; a [bool] is formatted as the integer 0 or 1. *)
Theorem to_detector_name_not_int (header : Header) (v : hval) :
  header !! "DETECTOR" = Some v →
  (∀ z, v ≠ VInt z) →
  eval to_detector_name header
  = match v with
    | VBool b => Ok (PVal (VStr (if b then "01" else "00")))
    | _ => Err ValueError
    end.
Proof.
  intros H Hv. rewrite eval_to_detector_name, H.
  destruct v as [s|z|[|]|m e]; try reflexivity.
  by destruct (Hv z).
Qed.

Lemma to_detector_name_not_int_witness :
  eval to_detector_name {["DETECTOR" := VStr "3"]} = Err ValueError.
Proof.
  apply (to_detector_name_not_int _ (VStr "3")).
  - apply lookup_singleton_eq.
  - discriminate.
Defined.

(** X7: different detector numbers get different names: on two headers
    whose DETECTOR cards are different integers, [to_detector_name] returns
    different names. *)
Theorem to_detector_name_injective (header1 header2 : Header) (z1 z2 : Z) :
  header1 !! "DETECTOR" = Some (VInt z1) →
  header2 !! "DETECTOR" = Some (VInt z2) →
  z1 ≠ z2 →
  eval to_detector_name header1 ≠ eval to_detector_name header2.
Proof.
  intros H1 H2 Hne. rewrite !eval_to_detector_name, H1, H2. cbn [format_02d].
  intros [= Heq]. apply Hne.
  pose proof (format_02d_int_value z1) as Hz1.
  rewrite Heq, format_02d_int_value in Hz1. congruence.
Qed.

Lemma to_detector_name_injective_witness :
  eval to_detector_name {["DETECTOR" := VInt 3]}
  ≠ eval to_detector_name {["DETECTOR" := VInt 30]}.
Proof.
  apply (to_detector_name_injective _ _ 3 30);
    [apply lookup_singleton_eq | apply lookup_singleton_eq | lia].
Defined.

(** ** Dict displays *)

(** The keys of a display are the keys of its entries. *)
Lemma dict_literal_is_Some {V} (l : list (string * V)) (k : string) :
  is_Some (dict_literal l !! k) ↔ k ∈ l.*1.
Proof.
  unfold dict_literal.
  assert (H : ∀ m : gmap string V,
             is_Some (foldl (fun m kv => <[kv.1 := kv.2]> m) m l !! k)
             ↔ k ∈ l.*1 ∨ is_Some (m !! k)).
  { induction l as [|[k' v'] l IH]; intros m; cbn [foldl fst snd].
    - rewrite fmap_nil, elem_of_nil. tauto.
    - rewrite IH, fmap_cons, elem_of_cons. cbn [fst].
      destruct (decide (k' = k)) as [->|Hne].
      + rewrite lookup_insert_eq. split; [auto | eauto].
      + rewrite lookup_insert_ne by done. split; [tauto|].
        intros [[Heq|?]|?]; [congruence | auto..]. }
  rewrite H, lookup_empty. split; [|auto].
  intros [?|[? [=]]]. done.
Qed.

(** ** The two maps of the class *)

(** X11: no property is translated twice: the names in [_const_map], the
    names in [_trivial_map] and the names of the methods the class writes
    out are all different. *)
Theorem properties_defined_once :
  NoDup (_const_map.*1 ++ _trivial_map.*1 ++ derived_properties).
Proof. apply (bool_decide_unpack _). by vm_compute. Qed.

(** X8: the dark time is the exposure time: on every header
    [to_dark_time] returns what [to_exposure_time] returns, the value of
    EXPTIME in seconds, and raises when it raises. *)
Theorem dark_time_is_exposure_time (header : Header) :
  eval to_dark_time header = eval to_exposure_time header ∧
  eval to_dark_time header
  = match header !! "EXPTIME" with
    | Some value => Ok (PQuantity value u_s)
    | None => Err (KeyError "EXPTIME")
    end.
Proof.
  unfold to_dark_time, to_exposure_time.
  entry_of "dark_time". entry_of "exposure_time". done.
Qed.

(** ** The ingest configuration, again *)

(** X12: the registry has a column for exactly the fields that the parse
    step fills: a key is in [config.register.columns] if and only if it
    is in [config.parse.translation] or in [config.parse.translators],
    and no field is in both of these. *)
Theorem columns_are_the_parsed_fields (key : string) :
  (is_Some (config.register.columns !! key)
     ↔ key ∈ config.parse.translation.*1 ∨ key ∈ config.parse.translators.*1) ∧
  ¬ (key ∈ config.parse.translation.*1 ∧ key ∈ config.parse.translators.*1).
Proof.
  unfold config.register.columns. rewrite dict_literal_is_Some.
  unfold config.parse.translation, config.parse.translators.
  cbn [fmap list_fmap fst].
  rewrite !elem_of_cons, !elem_of_nil.
  split; [tauto|].
  intros [H1 H2].
  repeat (destruct H2 as [H2|H2]); try done; subst key;
    repeat (destruct H1 as [H1|H1]); done.
Qed.

Lemma columns_are_the_parsed_fields_witness :
  is_Some (config.register.columns !! "expTime").
Proof.
  apply columns_are_the_parsed_fields. left.
  unfold config.parse.translation. cbn [fmap list_fmap fst].
  rewrite !elem_of_cons. tauto.
Defined.

(** ** Calls in any order *)

Lemma after_calls_coherent `{astropy : Astropy} (ms : list (M pyval)) (self : translator) :
  Forall (fun m => m ∈ accessors) ms → coherent self →
  coherent (after_calls ms self) ∧
  _header (after_calls ms self) = _header self.
Proof.
  intros Hms. revert self.
  induction Hms as [|m ms Hm _ IH]; intros self Hco; [done|].
  destruct (accessors_agree m Hm self Hco) as (_ & Hh & Hco').
  destruct (IH _ Hco') as (Hco'' & Hh').
  cbn [after_calls foldl]. split; [exact Hco'' | by rewrite <- Hh].
Qed.

(** X13: the order of the calls does not matter.  On a translator built
    from a header, after any calls of the accessors, some of which may have
    raised, each accessor returns or raises what it would as the first
    call on that header. *)
Theorem accessor_result_independent_of_history `{astropy : Astropy}
    (header : Header) (ms : list (M pyval)) (m : M pyval) :
  Forall (fun m' => m' ∈ accessors) ms →
  m ∈ accessors →
  (m (after_calls ms (new header))).1 = eval m header.
Proof.
  intros Hms Hm.
  destruct (after_calls_coherent ms (new header) Hms (coherent_new header))
    as (Hco & Hh).
  destruct (accessors_agree m Hm _ Hco) as (-> & _).
  by rewrite Hh.
Qed.

Lemma accessor_result_independent_of_history_witness :
  (to_datetime_begin (astropy := sample_host)
     (after_calls [to_datetime_end (astropy := sample_host); to_telescope]
        (new {["DATE-OBS" := VStr "20230115"]}))).1
  = eval (to_datetime_begin (astropy := sample_host))
         {["DATE-OBS" := VStr "20230115"]}.
Proof.
  apply (accessor_result_independent_of_history (astropy := sample_host)).
  - repeat apply Forall_cons_2; [| |apply Forall_nil_2];
      unfold accessors; rewrite !elem_of_cons; tauto.
  - unfold accessors; rewrite !elem_of_cons; tauto.
Defined.

(** ** What a call of [to_datetime_end] leaves behind *)

(** X14: a first call of [to_datetime_end] that returns has run the bodies
    of [to_datetime_end], [to_datetime_begin] and [to_exposure_time] once
    each, in that order, and has stored all three results: on the
    translator it leaves, each of the three accessors returns its part of
    the sum without running anything. *)
Theorem to_datetime_end_stores_its_parts `{astropy : Astropy}
    (header : Header) (v : pyval) (self' : translator) :
  to_datetime_end (new header) = (Ok v, self') →
  ∃ t e : pyval,
    v = PAdd t e ∧
    calls self' = ["to_exposure_time"; "to_datetime_begin"; "to_datetime_end"] ∧
    to_datetime_begin self' = (Ok t, self') ∧
    to_exposure_time self' = (Ok e, self') ∧
    to_datetime_end self' = (Ok v, self').
Proof.
  unfold to_datetime_end at 1. unfold new.
  rewrite cache_translation_miss by apply lookup_empty. method_steps.
  rewrite to_datetime_begin_reads_header_only by apply lookup_empty.
  cbn [_header _translation_cache calls].
  destruct (eval to_datetime_begin header) as [t|x]; [|discriminate].
  rewrite to_exposure_time_reads_header_only
    by (cbn [_translation_cache]; by rewrite lookup_insert_ne, lookup_empty).
  cbn [_header _translation_cache calls].
  destruct (eval to_exposure_time header) as [e|x]; [|discriminate].
  intros [= <- <-]. exists t, e.
  split; [done|]. split; [done|].
  split; [|split].
  - apply cache_translation_hit. cbn [_translation_cache].
    rewrite !lookup_insert_ne by done. apply lookup_insert_eq.
  - unfold to_exposure_time.
    rewrite (trivial_method_entry _ _ _ exposure_time_entry).
    apply cache_translation_hit. cbn [_translation_cache].
    rewrite lookup_insert_ne by done. apply lookup_insert_eq.
  - apply cache_translation_hit. cbn [_translation_cache].
    by rewrite lookup_insert_eq.
Qed.

Lemma to_datetime_end_stores_its_parts_witness :
  ∃ t e : pyval,
    PAdd (PTime "2023-01-15" "iso" "utc") (PQuantity (VInt 30) u_s) = PAdd t e.
Proof.
  destruct (to_datetime_end_stores_its_parts (astropy := sample_host)
              (dict_literal [("DATE-OBS", VStr "20230115"); ("EXPTIME", VInt 30)])
              (PAdd (PTime "2023-01-15" "iso" "utc") (PQuantity (VInt 30) u_s))
              (to_datetime_end (astropy := sample_host)
                 (new (dict_literal [("DATE-OBS", VStr "20230115");
                                     ("EXPTIME", VInt 30)]))).2)
    as (t & e & H & _).
  - by vm_compute.
  - by exists t, e.
Defined.
